(** * The PHP task report page (web/src/app/page.tsx)

    A shallow embedding of the page module: the descriptor table
    [baseTasks], the module-level construction of [tasks] (one synchronous
    file read per descriptor) and the [Home] component, which maps the task
    records to a tree of markup elements.

    JavaScript strings are held as [string]; a non-ASCII character of a
    literal (the middle dot of the titles) is held by the bytes of the
    source file.  Objects that the program never mutates are held as
    immutable records. *)

From Stdlib Require Import Ascii.
From stdpp Require Import base option strings list gmap.

Set Warnings "-register-all".

Open Scope string_scope.
Open Scope list_scope.

(** ** Data model *)

(** [Omit<Task, "code">]: the element type of [baseTasks]. *)
Module BaseTask.
Record t := mk {
  id : string;
  title : string;
  aim : string;
  highlights : list string;
  program : string
}.
End BaseTask.

(** [type Task]. *)
Module Task.
Record t := mk {
  id : string;
  title : string;
  aim : string;
  highlights : list string;
  program : string;
  code : string
}.
End Task.

(** The object spread [{ ...task, code }] of the map callback: every own
    property of [task] is copied, then [code] is set. *)
Definition spread_with_code (task : BaseTask.t) (code : string) : Task.t :=
  {| Task.id := BaseTask.id task;
     Task.title := BaseTask.title task;
     Task.aim := BaseTask.aim task;
     Task.highlights := BaseTask.highlights task;
     Task.program := BaseTask.program task;
     Task.code := code |}.

(** Forgetting the [code] property of a task record. *)
Definition omit_code (task : Task.t) : BaseTask.t :=
  {| BaseTask.id := Task.id task;
     BaseTask.title := Task.title task;
     BaseTask.aim := Task.aim task;
     BaseTask.highlights := Task.highlights task;
     BaseTask.program := Task.program task |}.

(** [const baseTasks]. *)
Definition baseTasks : list BaseTask.t :=
  [ {| BaseTask.id := "task-1";
       BaseTask.title := "Task 1 · Largest Number Using Nested If";
       BaseTask.aim :=
         "Determine the largest of three numbers with nested if statements.";
       BaseTask.highlights :=
         [ "Demonstrates conditional control flow without helper utilities.";
           "Prints the evaluated numbers and the detected maximum.";
           "Relies strictly on nested branching for the decision path." ];
       BaseTask.program := "task1_largest.php" |};
    {| BaseTask.id := "task-2";
       BaseTask.title := "Task 2 · Reverse String with strrev()";
       BaseTask.aim := "Reverse a string using PHP's strrev() function.";
       BaseTask.highlights :=
         [ "Uses PHP's built-in string helper directly.";
           "Displays both original and reversed strings for validation.";
           "Keeps the input deterministic for the documented screenshot." ];
       BaseTask.program := "task2_reverse.php" |} ].

(** ** The world the module runs in *)

(** Error codes of a failed [fs.readFileSync]. *)
Inductive errno := ENOENT | EACCES | EISDIR.

(** What a path of the file system holds.  The content of a regular file is
    the text that reading it with the "utf8" encoding yields. *)
Inductive inode :=
| RegularFile (readable : bool) (content : string)
| Directory.

(** Input and output a program can perform; the trace of a run lists them
    in order. *)
Inductive effect :=
| ReadFile (path : string)
| WriteFile (path : string)
| NetworkCall (url : string).

Record World := mkWorld {
  cwd : string;                              (* process.cwd() *)
  files : gmap string inode;                 (* the file system *)
  trace : list effect;                       (* input and output so far *)
  var_baseTasks : option (list BaseTask.t);  (* module scope: baseTasks *)
  var_tasks : option (list Task.t)           (* module scope: tasks *)
}.

(** The world after some more input and output. *)
Definition log_all (es : list effect) (w : World) : World :=
  mkWorld (cwd w) (files w) (trace w ++ es) (var_baseTasks w) (var_tasks w).

Definition log (e : effect) (w : World) : World := log_all [e] w.

Definition init_baseTasks (v : list BaseTask.t) (w : World) : World :=
  mkWorld (cwd w) (files w) (trace w) (Some v) (var_tasks w).

Definition init_tasks (v : list Task.t) (w : World) : World :=
  mkWorld (cwd w) (files w) (trace w) (var_baseTasks w) (Some v).

(** Exceptions.  [SystemError] is what a failed [fs.readFileSync] throws
    (the error the specification calls MissingOrUnreadableSource);
    [ReferenceError] is the use of a module binding before its
    initialisation. *)
Inductive exn :=
| SystemError (code : errno) (path : string)
| ReferenceError (name : string).

Inductive outcome (A : Type) :=
| Ok (a : A)
| Throw (e : exn).
Arguments Ok {A} a.
Arguments Throw {A} e.

(** Synchronous JavaScript code: it runs in a world, returns or throws, and
    leaves a world behind in both cases. *)
Definition Js (A : Type) : Type := World → outcome A * World.

#[export] Instance Js_ret : MRet Js := λ A a w, (Ok a, w).

#[export] Instance Js_bind : MBind Js := λ A B k m w,
  match m w with
  | (Ok a, w') => k a w'
  | (Throw e, w') => (Throw e, w')
  end.

Definition throw {A} (e : exn) : Js A := λ w, (Throw e, w).

(** [process.cwd()].  The working directory of a world exists: the failure
    of [process.cwd()] in a directory that has been removed is outside
    the model. *)
Definition process_cwd : Js string := λ w, (Ok (cwd w), w).

(** [fs.readFileSync(path, "utf8")].  The call is decided by the entry at
    the path: a regular file that can be read gives its text, anything
    else throws.  [SystemError code path] records the code of the failure
    and the path the call was made with; this is less than Node tells
    apart and not what its error object holds in every case: the error
    for a directory carries no path, a component of the path that is a
    regular file gives ENOTDIR, and a path that Node does not accept is
    refused before the file system is asked.  Every call is logged, also
    one that fails. *)
Definition readFileSync (path : string) : Js string := λ w,
  let w' := log (ReadFile path) w in
  match files w !! path with
  | None => throw (SystemError ENOENT path) w'
  | Some Directory => throw (SystemError EISDIR path) w'
  | Some (RegularFile false _) => throw (SystemError EACCES path) w'
  | Some (RegularFile true content) => (Ok content, w')
  end.

(** [Array.prototype.map] with a callback that has effects: the elements
    are visited from the first to the last, and the first exception ends
    the loop. *)
Fixpoint array_map {A B} (f : A → Js B) (l : list A) : Js (list B) :=
  match l with
  | [] => mret []
  | x :: l' => y ← f x; ys ← array_map f l'; mret (y :: ys)
  end.

(** Reading and initialising the bindings of the module scope. *)
Definition get_baseTasks : Js (list BaseTask.t) := λ w,
  match var_baseTasks w with
  | Some v => (Ok v, w)
  | None => throw (ReferenceError "baseTasks") w
  end.

Definition get_tasks : Js (list Task.t) := λ w,
  match var_tasks w with
  | Some v => (Ok v, w)
  | None => throw (ReferenceError "tasks") w
  end.

Definition set_baseTasks (v : list BaseTask.t) : Js unit :=
  λ w, (Ok (), init_baseTasks v w).

Definition set_tasks (v : list Task.t) : Js unit :=
  λ w, (Ok (), init_tasks v w).

(** ** Markup *)

(** A React element tree: what a component returns.  An element has a tag,
    its [key], its other props and its children; a string child is a text
    node. *)
Inductive node :=
| Text (s : string)
| Element (tag : string) (key : option string)
    (props : list (string * string)) (children : list node).

(** The class names of [page.module.css], the style sheet that the module
    imports as [styles]. *)
Module Css.
Record t := mk {
  page : string;
  container : string;
  header : string;
  actions : string;
  primary : string;
  secondary : string;
  tasksSection : string;
  taskList : string;
  taskCard : string;
  aim : string;
  highlightList : string;
  codeBlock : string
}.
End Css.

(** Queries on a tree, used to state what a document contains. *)

Definition children_of (n : node) : list node :=
  match n with
  | Text _ => []
  | Element _ _ _ cs => cs
  end.

Definition key_of (n : node) : option string :=
  match n with
  | Text _ => None
  | Element _ k _ _ => k
  end.

Definition has_tag (t : string) (n : node) : bool :=
  match n with
  | Text _ => false
  | Element tg _ _ _ => bool_decide (tg = t)
  end.

(** The value of a prop of an element, [None] when the prop is absent. *)
Definition prop (name : string) (n : node) : option string :=
  match n with
  | Text _ => None
  | Element _ _ ps _ => snd <$> List.find (λ p, bool_decide (fst p = name)) ps
  end.

(** The elements with tag [t] in the tree of [n], in document order. *)
Fixpoint by_tag (t : string) (n : node) {struct n} : list node :=
  match n with
  | Text _ => []
  | Element _ _ _ cs =>
      (if has_tag t n then [n] else []) ++ List.concat (List.map (by_tag t) cs)
  end.

(** The children of [n] that are elements with tag [t]. *)
Definition child_elements (t : string) (n : node) : list node :=
  List.filter (has_tag t) (children_of n).

(** The text of a tree: its text nodes, concatenated in document order. *)
Fixpoint text_content (n : node) {struct n} : string :=
  match n with
  | Text s => s
  | Element _ _ _ cs => String.concat "" (List.map text_content cs)
  end.

(** The elements with tag [t] that are children of an element of [ns]. *)
Definition select_children (t : string) (ns : list node) : list node :=
  List.flat_map (child_elements t) ns.

(** The task cards of a document: the items of the lists that are
    children of its sections. *)
Definition task_cards (doc : node) : list node :=
  select_children "li" (select_children "ul" (by_tag "section" doc)).

(** An environment to run the module in: a project deployed at /srv/app
    with its two PHP programs, and the class names of a build. *)
Definition sample_styles : Css.t :=
  {| Css.page := "page_page__ZU32B";
     Css.container := "page_container__aoG4z";
     Css.header := "page_header__kwpTo";
     Css.actions := "page_actions__3YwqJ";
     Css.primary := "page_primary__V8M9Y";
     Css.secondary := "page_secondary__lm_PT";
     Css.tasksSection := "page_tasksSection__Zt8Fd";
     Css.taskList := "page_taskList__Qq1Xb";
     Css.taskCard := "page_taskCard__k3xYv";
     Css.aim := "page_aim__w2T9c";
     Css.highlightList := "page_highlightList__R5mNe";
     Css.codeBlock := "page_codeBlock__h7LpA" |}.

Definition sample_largest : string :=
  "<?php $a = 12; $b = 45; $c = 27; if ($a > $b) { if ($a > $c) { $m = $a; } else { $m = $c; } } else { if ($b > $c) { $m = $b; } else { $m = $c; } } echo $m; ".

Definition sample_reverse : string :=
  "<?php $text = 'Design Arena'; echo strrev($text); ".

Definition sample_files : gmap string inode :=
  {[ "/srv/app/php/task1_largest.php" := RegularFile true sample_largest;
     "/srv/app/php/task2_reverse.php" := RegularFile true sample_reverse ]}.

Definition sample_world : World := mkWorld "/srv/app" sample_files [] None None.

(** The same deployment without its second program. *)
Definition world_missing_reverse : World :=
  mkWorld "/srv/app" (delete "/srv/app/php/task2_reverse.php" sample_files)
    [] None None.

(** The deployment without its first program, and the sample deployment
    after some unrelated activity: another file, and input and output
    already in the trace. *)
Definition world_missing_largest : World :=
  mkWorld "/srv/app" (delete "/srv/app/php/task1_largest.php" sample_files)
    [] None None.

Definition sample_world_busy : World :=
  mkWorld "/srv/app"
    (<["/srv/app/public/task-report.pdf" := RegularFile true "%PDF-1.7"]>
       sample_files)
    [NetworkCall "https://registry.npmjs.org/"] None None.

(** A descriptor whose program is not deployed, and a table that holds it
    between the two descriptors of [baseTasks]. *)
Definition task_without_file : BaseTask.t :=
  {| BaseTask.id := "task-3";
     BaseTask.title := "Task 3";
     BaseTask.aim := "";
     BaseTask.highlights := [];
     BaseTask.program := "task3_absent.php" |}.

Definition table_with_gap : list BaseTask.t :=
  List.firstn 1 baseTasks ++ task_without_file :: List.skipn 1 baseTasks.

(** Two task records that show the same: they agree on every property but
    [program], which [Home] does not read. *)
Definition same_display (a b : Task.t) : Prop :=
  Task.id a = Task.id b
  ∧ Task.title a = Task.title b
  ∧ Task.aim a = Task.aim b
  ∧ Task.highlights a = Task.highlights b
  ∧ Task.code a = Task.code b.

(** ** Paths *)

(** [path.join] of POSIX systems: the arguments that are not empty are
    joined by a slash and the result is normalised: empty segments and
    [.] are dropped, [..] removes the segment before it. *)
Module Posix.

Fixpoint segments (s : string) : list string :=
  match s with
  | EmptyString => [""]
  | String c s' =>
      if bool_decide (c = "/"%char) then "" :: segments s'
      else match segments s' with
           | [] => [String c ""]
           | seg :: rest => String c seg :: rest
           end
  end.

(** The segments kept so far are held last first. *)
Fixpoint normalize_segments (allowAboveRoot : bool) (kept : list string)
    (segs : list string) : list string :=
  match segs with
  | [] => List.rev kept
  | seg :: segs' =>
      if bool_decide (seg = "") || bool_decide (seg = ".")
      then normalize_segments allowAboveRoot kept segs'
      else if bool_decide (seg = "..")
      then match kept with
           | top :: kept' =>
               if bool_decide (top = "..")
               then normalize_segments allowAboveRoot (seg :: kept) segs'
               else normalize_segments allowAboveRoot kept' segs'
           | [] =>
               if allowAboveRoot
               then normalize_segments allowAboveRoot [seg] segs'
               else normalize_segments allowAboveRoot [] segs'
           end
      else normalize_segments allowAboveRoot (seg :: kept) segs'
  end.

Definition join_with (sep : string) (l : list string) : string :=
  match l with
  | [] => ""
  | x :: l' => List.fold_left (λ acc y, acc +:+ sep +:+ y) l' x
  end.

Definition starts_with_slash (s : string) : bool :=
  match s with
  | String c _ => bool_decide (c = "/"%char)
  | EmptyString => false
  end.

Fixpoint ends_with_slash (s : string) : bool :=
  match s with
  | EmptyString => false
  | String c EmptyString => bool_decide (c = "/"%char)
  | String _ s' => ends_with_slash s'
  end.

Definition normalize (path : string) : string :=
  if bool_decide (path = "") then "."
  else
    let isAbsolute := starts_with_slash path in
    let trailingSeparator := ends_with_slash path in
    let p := join_with "/"
               (normalize_segments (negb isAbsolute) [] (segments path)) in
    if bool_decide (p = "")
    then (if isAbsolute then "/" else if trailingSeparator then "./" else ".")
    else (if isAbsolute then "/" else "") +:+ p
           +:+ (if trailingSeparator then "/" else "").

Definition join (args : list string) : string :=
  match List.filter (λ a, negb (bool_decide (a = ""))) args with
  | [] => "."
  | parts => normalize (join_with "/" parts)
  end.

End Posix.

(** ** The page module *)

Section Page.

(** The imported style sheet and the platform's [path.join]. *)
Variable styles : Css.t.
Variable path_join : list string → string.

(** The callback of [baseTasks.map]. *)
Definition load_task (task : BaseTask.t) : Js Task.t :=
  dir ← process_cwd;
  let filePath := path_join [dir; "php"; BaseTask.program task] in
  code ← readFileSync filePath;
  mret (spread_with_code task code).

(** [descriptors.map((task) => { ... })]: the construction of the task
    records from a list of descriptors. *)
Definition buildTaskRecords (descriptors : list BaseTask.t) : Js (list Task.t) :=
  array_map load_task descriptors.

(** The initialiser of [const tasks]. *)
Definition tasks : Js (list Task.t) :=
  descriptors ← get_baseTasks;
  buildTaskRecords descriptors.

(** The evaluation of the module: its two declarations, in order. *)
Definition page_module : Js unit :=
  set_baseTasks baseTasks;;
  records ← tasks;
  set_tasks records.

(** The callback of [task.highlights.map]. *)
Definition highlight_item (highlight : string) : node :=
  Element "li" (Some highlight) [] [Text highlight].

(** The callback of [tasks.map]: one card. *)
Definition task_card (task : Task.t) : node :=
  Element "li" (Some (Task.id task)) [("className", Css.taskCard styles)]
    [ Element "h3" None [] [Text (Task.title task)];
      Element "p" None [("className", Css.aim styles)]
        [ Element "strong" None [] [Text "Aim:"];
          Text " ";
          Text (Task.aim task) ];
      Element "ul" None [("className", Css.highlightList styles)]
        (List.map highlight_item (Task.highlights task));
      Element "details" None [("className", Css.codeBlock styles)]
        [ Element "summary" None [] [Text "Show Program"];
          Element "pre" None []
            [ Element "code" None [] [Text (Task.code task)] ] ] ].

(** The element that [Home] returns, as a function of the task records
    that the module holds. *)
Definition render (records : list Task.t) : node :=
  Element "div" None [("className", Css.page styles)]
    [ Element "main" None [("className", Css.container styles)]
        [ Element "section" None [("className", Css.header styles)]
            [ Element "h1" None [] [Text "PHP Programming Task Report"];
              Element "p" None []
                [Text ("Two PHP exercises were implemented, validated in the sandbox, and "
                       +:+ "compiled into a structured PDF. Download the report to review the "
                       +:+ "aims, constraints, procedures, program listings, captured outputs, "
                       +:+ "and conclusions for each task.")];
              Element "div" None [("className", Css.actions styles)]
                [ Element "a" None
                    [ ("className", Css.primary styles);
                      ("href", "/task-report.pdf") ]
                    [Text "Download Report"];
                  Element "a" None
                    [ ("className", Css.secondary styles);
                      ("href", "/task-report.pdf");
                      ("target", "_blank");
                      ("rel", "noreferrer") ]
                    [Text "Open Report in Browser"] ] ];
          Element "section" None [("className", Css.tasksSection styles)]
            [ Element "h2" None [] [Text "Included Tasks"];
              Element "ul" None [("className", Css.taskList styles)]
                (List.map task_card records) ] ] ].

(** [export default function Home()]: it takes no argument and reads the
    module's [tasks]. *)
Definition Home : Js node :=
  records ← get_tasks;
  mret (render records).

(** The first render of the page: the module is evaluated, then [Home] is
    called. *)
Definition first_render : Js node :=
  page_module;;
  Home.

(** What happens once the module is loaded: the page is requested, by some
    viewer at some time, and between the requests the environment may
    change the file system or the working directory. *)
Inductive event :=
| Request (viewer : string) (time : nat)
| FilePut (path : string) (i : inode)
| FileRemoved (path : string)
| DirectoryChanged (dir : string).

Definition handle (e : event) (w : World) : option (outcome node) * World :=
  match e with
  | Request _ _ => let '(r, w') := Home w in (Some r, w')
  | FilePut path i =>
      (None, mkWorld (cwd w) (<[path := i]> (files w)) (trace w)
               (var_baseTasks w) (var_tasks w))
  | FileRemoved path =>
      (None, mkWorld (cwd w) (delete path (files w)) (trace w)
               (var_baseTasks w) (var_tasks w))
  | DirectoryChanged dir =>
      (None, mkWorld dir (files w) (trace w) (var_baseTasks w) (var_tasks w))
  end.

(** The responses to the requests of a sequence of events, in order, and
    the world left behind. *)
Fixpoint serve (events : list event) (w : World) : list (outcome node) * World :=
  match events with
  | [] => ([], w)
  | e :: events' =>
      let '(r, w') := handle e w in
      let '(rs, w'') := serve events' w' in
      (match r with Some o => o :: rs | None => rs end, w'')
  end.

(** The file that the module reads for a descriptor, and its text when the
    read succeeds. *)
Definition source_path (w : World) (task : BaseTask.t) : string :=
  path_join [cwd w; "php"; BaseTask.program task].

Definition source_text (w : World) (task : BaseTask.t) : option string :=
  match files w !! source_path w task with
  | Some (RegularFile true content) => Some content
  | _ => None
  end.

(** The paths that the construction reads for a list of descriptors. *)
Definition reads_of (w : World) (descriptors : list BaseTask.t) : list effect :=
  List.map (λ task, ReadFile (source_path w task)) descriptors.

(** A descriptor whose file can be read in a world. *)
Definition readable (w : World) (task : BaseTask.t) : Prop :=
  is_Some (source_text w task).

(** The records that the construction returns when every file is read. *)
Definition records_of (w : World) (descriptors : list BaseTask.t) : list Task.t :=
  List.map (λ task, spread_with_code task (default "" (source_text w task)))
    descriptors.

(** Whether an event is a request of the page. *)
Definition is_request (e : event) : bool :=
  match e with
  | Request _ _ => true
  | _ => false
  end.

(** ** The world and the monad *)

Lemma log_all_nil w : log_all [] w = w.
Proof. destruct w; unfold log_all; simpl. by rewrite app_nil_r. Qed.

Lemma log_all_app es1 es2 w : log_all es2 (log_all es1 w) = log_all (es1 ++ es2) w.
Proof. unfold log_all; simpl. by rewrite app_assoc. Qed.

Lemma bind_Ok {A B} (m : Js A) (k : A → Js B) w a w' :
  m w = (Ok a, w') → (m ≫= k) w = k a w'.
Proof. intros E. unfold mbind, Js_bind. by rewrite E. Qed.

Lemma bind_Throw {A B} (m : Js A) (k : A → Js B) w e w' :
  m w = (Throw e, w') → (m ≫= k) w = (Throw e, w').
Proof. intros E. unfold mbind, Js_bind. by rewrite E. Qed.

(** ** One read *)

Lemma load_task_Ok task w content :
  source_text w task = Some content →
  load_task task w
  = (Ok (spread_with_code task content), log (ReadFile (source_path w task)) w).
Proof.
  unfold source_text, load_task, source_path, process_cwd, readFileSync.
  unfold mbind, Js_bind, mret, Js_ret.
  destruct (files w !! _) as [[[] c|]|]; intros [= <-]; done.
Qed.

Lemma load_task_Throw task w :
  source_text w task = None →
  ∃ code, load_task task w
  = (Throw (SystemError code (source_path w task)),
     log (ReadFile (source_path w task)) w).
Proof.
  unfold source_text, load_task, source_path, process_cwd, readFileSync.
  unfold mbind, Js_bind, mret, Js_ret.
  destruct (files w !! _) as [[[] c|]|]; intros [=]; eauto.
Qed.

(** ** The construction of the records *)

(** When every file can be read, the construction returns one record per
    descriptor and has read each file once, in the order of the list. *)
Lemma buildTaskRecords_Ok descriptors w records :
  Forall2 (λ task record,
    ∃ content, source_text w task = Some content
               ∧ record = spread_with_code task content) descriptors records →
  buildTaskRecords descriptors w = (Ok records, log_all (reads_of w descriptors) w).
Proof.
  unfold buildTaskRecords. revert w records.
  induction descriptors as [|task descriptors IH]; intros w records H.
  - inversion H; subst. simpl. by rewrite log_all_nil.
  - inversion H as [|? record ? records' (content & Hc & ->) H']; subst.
    simpl. rewrite (bind_Ok _ _ _ _ _ (load_task_Ok _ _ _ Hc)).
    rewrite (bind_Ok _ _ _ _ _
               (IH (log (ReadFile (source_path w task)) w) records' H')).
    unfold mret, Js_ret, log. by rewrite log_all_app.
Qed.

(** When a file cannot be read, the construction throws the error of the
    first such file, having read the files before it and tried this one. *)
Lemma buildTaskRecords_Throw before task after w :
  Forall (readable w) before →
  source_text w task = None →
  ∃ code, buildTaskRecords (before ++ task :: after) w
  = (Throw (SystemError code (source_path w task)),
     log_all (reads_of w (before ++ [task])) w).
Proof.
  unfold buildTaskRecords. revert w.
  induction before as [|t before IH]; intros w Hb Hn.
  - destruct (load_task_Throw _ _ Hn) as [code E]. exists code.
    simpl. by rewrite (bind_Throw _ _ _ _ _ E).
  - inversion Hb as [|? ? [content Hc] Hb']; subst.
    destruct (IH (log (ReadFile (source_path w t)) w) Hb' Hn) as [code E].
    exists code. simpl.
    rewrite (bind_Ok _ _ _ _ _ (load_task_Ok _ _ _ Hc)).
    rewrite (bind_Throw _ _ _ _ _ E).
    unfold log. by rewrite log_all_app.
Qed.

(** A list of descriptors either has all its files readable or splits at
    the first one that is not. *)
Lemma first_unreadable w (descriptors : list BaseTask.t) :
  Forall (readable w) descriptors
  ∨ ∃ before task after,
      descriptors = before ++ task :: after
      ∧ Forall (readable w) before
      ∧ source_text w task = None.
Proof.
  induction descriptors as [|t descriptors IH]; [by left|].
  destruct (source_text w t) as [content|] eqn:E.
  - destruct IH as [IH|(before & task & after & -> & Hb & Hn)].
    + left. constructor; [by exists content|done].
    + right. exists (t :: before), task, after.
      split_and!; [done| |done]. constructor; [by exists content|done].
  - right. by exists [], t, descriptors.
Qed.

Lemma records_of_Forall2 w descriptors :
  Forall (readable w) descriptors →
  Forall2 (λ task record,
    ∃ content, source_text w task = Some content
               ∧ record = spread_with_code task content)
    descriptors (records_of w descriptors).
Proof.
  induction 1 as [|t descriptors [content Hc] _ IH]; simpl; constructor; [|done].
  exists content. by rewrite Hc.
Qed.

(** Whatever its outcome, the construction leaves the world as it was but
    for the trace, which grows by the reads of a prefix of the list. *)
Lemma buildTaskRecords_world descriptors w :
  ∃ k, (buildTaskRecords descriptors w).2
       = log_all (reads_of w (take k descriptors)) w.
Proof.
  destruct (first_unreadable w descriptors)
    as [Hall|(before & task & after & -> & Hb & Hn)].
  - exists (length descriptors).
    rewrite (buildTaskRecords_Ok _ _ _ (records_of_Forall2 _ _ Hall)).
    by rewrite firstn_all.
  - exists (S (length before)).
    destruct (buildTaskRecords_Throw before task after w Hb Hn) as [code ->].
    simpl. do 2 f_equal.
    replace (S (length before)) with (length before + 1) by lia.
    by rewrite take_app_add'.
Qed.

(** ** The evaluation of the module *)

Lemma tasks_after_set_baseTasks descriptors w :
  tasks (init_baseTasks descriptors w)
  = buildTaskRecords descriptors (init_baseTasks descriptors w).
Proof. done. Qed.

Lemma page_module_Ok w :
  Forall (readable w) baseTasks →
  page_module w
  = (Ok (), init_tasks (records_of w baseTasks)
              (log_all (reads_of w baseTasks) (init_baseTasks baseTasks w))).
Proof.
  intros Hall. unfold page_module, set_baseTasks.
  unfold mbind at 1, Js_bind at 1.
  pose proof (buildTaskRecords_Ok baseTasks (init_baseTasks baseTasks w) _
                (records_of_Forall2 w _ Hall)) as E.
  rewrite <- (tasks_after_set_baseTasks baseTasks w) in E.
  by rewrite (bind_Ok _ _ _ _ _ E).
Qed.

Lemma page_module_Throw w before task after :
  baseTasks = before ++ task :: after →
  Forall (readable w) before →
  source_text w task = None →
  ∃ code, page_module w
  = (Throw (SystemError code (source_path w task)),
     log_all (reads_of w (before ++ [task])) (init_baseTasks baseTasks w)).
Proof.
  intros Hsplit Hb Hn.
  destruct (buildTaskRecords_Throw before task after
              (init_baseTasks baseTasks w) Hb Hn) as [code E].
  exists code. unfold page_module, set_baseTasks.
  unfold mbind at 1, Js_bind at 1.
  rewrite <- Hsplit, <- (tasks_after_set_baseTasks baseTasks w) in E.
  by rewrite (bind_Throw _ _ _ _ _ E).
Qed.

Lemma Home_initialised w records :
  var_tasks w = Some records → Home w = (Ok (render records), w).
Proof. intros E. unfold Home, get_tasks, mbind, Js_bind. by rewrite E. Qed.

Lemma Home_uninitialised w :
  var_tasks w = None → Home w = (Throw (ReferenceError "tasks"), w).
Proof. intros E. unfold Home, get_tasks, mbind, Js_bind. by rewrite E. Qed.

(** ** The markup *)

Lemma by_tag_section_highlights (hs : list string) :
  List.concat (List.map (by_tag "section") (List.map highlight_item hs)) = [].
Proof. induction hs as [|h hs IH]; [done|]. simpl. exact IH. Qed.

Lemma by_tag_section_task_card task : by_tag "section" (task_card task) = [].
Proof. simpl. by rewrite by_tag_section_highlights. Qed.

Lemma by_tag_section_task_cards records :
  List.concat (List.map (by_tag "section") (List.map task_card records)) = [].
Proof.
  induction records as [|task records IH]; [done|].
  cbn [List.map List.concat]. by rewrite by_tag_section_task_card, IH.
Qed.

Lemma filter_li_task_cards records :
  List.filter (has_tag "li") (List.map task_card records)
  = List.map task_card records.
Proof. induction records as [|task records IH]; [done|]. simpl. by rewrite IH. Qed.

(** The cards of the document are the images of the records, in order. *)
Lemma task_cards_render records :
  task_cards (render records) = List.map task_card records.
Proof.
  unfold task_cards, render. simpl.
  rewrite by_tag_section_task_cards. simpl.
  unfold child_elements. simpl.
  by rewrite filter_li_task_cards, app_nil_r.
Qed.

Lemma highlight_items_keys (hs : list string) :
  key_of <$> List.map highlight_item hs = Some <$> hs.
Proof. induction hs as [|h hs IH]; [done|]. simpl. f_equal. exact IH. Qed.

Lemma highlight_items_texts (hs : list string) :
  text_content <$> List.map highlight_item hs = hs.
Proof. induction hs as [|h hs IH]; [done|]. simpl. f_equal. exact IH. Qed.

Lemma highlight_items_tags (hs : list string) :
  Forall (λ item, has_tag "li" item = true) (List.map highlight_item hs).
Proof. induction hs as [|h hs IH]; simpl; by constructor. Qed.

(** ** Serving the page *)

Lemma serve_initialised events w records :
  var_tasks w = Some records →
  (serve events w).1
  = List.map (λ _, Ok (render records)) (List.filter is_request events)
  ∧ trace (serve events w).2 = trace w
  ∧ var_tasks (serve events w).2 = Some records.
Proof.
  revert w. induction events as [|e events IH]; intros w Hv; [done|].
  destruct e as [viewer time|path i|path|dir]; simpl.
  - rewrite (Home_initialised _ _ Hv).
    destruct (IH w Hv) as (E1 & E2 & E3).
    destruct (serve events w) as [rs w2]; simpl in *. by rewrite E1.
  - match goal with |- context [serve events ?w1] =>
      destruct (IH w1 Hv) as (E1 & E2 & E3);
      destruct (serve events w1) as [rs w2] end; done.
  - match goal with |- context [serve events ?w1] =>
      destruct (IH w1 Hv) as (E1 & E2 & E3);
      destruct (serve events w1) as [rs w2] end; done.
  - match goal with |- context [serve events ?w1] =>
      destruct (IH w1 Hv) as (E1 & E2 & E3);
      destruct (serve events w1) as [rs w2] end; done.
Qed.

(** The module evaluates without an exception only when every file of the
    table can be read. *)
Lemma page_module_Ok_readable w w1 :
  page_module w = (Ok (), w1) → Forall (readable w) baseTasks.
Proof.
  intros E.
  destruct (first_unreadable w baseTasks)
    as [Hall|(before & task & after & Hs & Hb & Hn)]; [done|].
  destruct (page_module_Throw w before task after Hs Hb Hn) as [code E'].
  congruence.
Qed.

(** ** The properties of the specification *)

(** C6: the [id] values of the descriptor table are pairwise distinct:
    two descriptors at different positions of [baseTasks] have different
    ids. *)
Theorem baseTasks_ids_distinct (i j : nat) (a b : BaseTask.t) :
  baseTasks !! i = Some a →
  baseTasks !! j = Some b →
  i ≠ j →
  BaseTask.id a ≠ BaseTask.id b.
Proof.
  intros Ha Hb Hij.
  destruct i as [|[|i]], j as [|[|j]]; simpl in Ha, Hb; simplify_eq; done.
Qed.

(** C1: when the files of the table can be read, the evaluation of the
    module binds [tasks] to records whose [code] is, for each descriptor,
    exactly the text of the file at [<cwd>/php/<program>]: nothing is
    trimmed or transformed between the read and the record. *)
Theorem tasks_code_is_file_text (w : World) :
  Forall (readable w) baseTasks →
  ∃ records w',
    page_module w = (Ok (), w')
    ∧ var_tasks w' = Some records
    ∧ Forall2 (λ task record,
        files w !! path_join [cwd w; "php"; BaseTask.program task]
        = Some (RegularFile true (Task.code record)))
        baseTasks records.
Proof.
  intros Hall. eexists _, _. split; [exact (page_module_Ok w Hall)|].
  split; [done|].
  eapply Forall2_impl; [exact (records_of_Forall2 w _ Hall)|].
  intros task record (content & Hc & ->). simpl.
  unfold source_text, source_path in Hc.
  destruct (files w !! _) as [[[] c|]|]; by simplify_eq.
Qed.

(** C2: when the files of the table can be read, the list bound to
    [tasks] has the length of [baseTasks] and its order: the record at
    position [i] is the one built from the descriptor at position [i]. *)
Theorem tasks_same_length_and_order (w : World) :
  Forall (readable w) baseTasks →
  ∃ records w',
    page_module w = (Ok (), w')
    ∧ var_tasks w' = Some records
    ∧ length records = length baseTasks
    ∧ ∀ i task, baseTasks !! i = Some task →
        ∃ record, records !! i = Some record
                  ∧ omit_code record = task
                  ∧ source_text w task = Some (Task.code record).
Proof.
  intros Hall. eexists _, _. split; [exact (page_module_Ok w Hall)|].
  split; [done|].
  pose proof (records_of_Forall2 w _ Hall) as HF.
  split; [symmetry; exact (Forall2_length _ _ _ HF)|].
  intros i task Hi.
  destruct (Forall2_lookup_l _ _ _ _ _ HF Hi) as (record & Hr & content & Hc & ->).
  exists (spread_with_code task content). split_and!; [done| |done].
  by destruct task.
Qed.

(** C9: each record bound to [tasks] carries the [id], [title], [aim],
    [highlights] and [program] of its descriptor unchanged; the record is
    the descriptor with a [code] property and nothing else, and that
    property is the text loaded from the file of the descriptor. *)
Theorem tasks_preserve_descriptor_fields (w : World) :
  Forall (readable w) baseTasks →
  ∃ records w',
    page_module w = (Ok (), w')
    ∧ var_tasks w' = Some records
    ∧ Forall2 (λ task record,
        Task.id record = BaseTask.id task
        ∧ Task.title record = BaseTask.title task
        ∧ Task.aim record = BaseTask.aim task
        ∧ Task.highlights record = BaseTask.highlights task
        ∧ Task.program record = BaseTask.program task
        ∧ record = spread_with_code task (Task.code record)
        ∧ source_text w task = Some (Task.code record))
        baseTasks records.
Proof.
  intros Hall. eexists _, _. split; [exact (page_module_Ok w Hall)|].
  split; [done|].
  eapply Forall2_impl; [exact (records_of_Forall2 w _ Hall)|].
  by intros task record (content & Hc & ->).
Qed.

(** C3: when the file of some descriptor of the table is missing or cannot
    be read, the evaluation of the module throws the system error of a
    descriptor whose file cannot be read, [tasks] is left as it was (no
    list of records, not even a partial one, is bound), and the first
    render of the page throws the same error instead of returning a
    document. *)
Theorem unreadable_source_aborts (w : World) (task : BaseTask.t) :
  task ∈ baseTasks →
  ¬ readable w task →
  ∃ code culprit w',
    culprit ∈ baseTasks
    ∧ ¬ readable w culprit
    ∧ page_module w = (Throw (SystemError code (source_path w culprit)), w')
    ∧ var_tasks w' = var_tasks w
    ∧ first_render w = (Throw (SystemError code (source_path w culprit)), w').
Proof.
  intros Hin Hnot.
  destruct (first_unreadable w baseTasks)
    as [Hall|(before & culprit & after & Hs & Hb & Hn)].
  { rewrite Forall_forall in Hall. destruct Hnot. by apply Hall. }
  destruct (page_module_Throw w before culprit after Hs Hb Hn) as [code E].
  exists code, culprit. eexists. split_and!; [| |exact E|done|].
  - rewrite Hs, elem_of_app, elem_of_cons. by right; left.
  - unfold readable. rewrite Hn. by intros [? ?].
  - unfold first_render. by rewrite (bind_Throw _ _ _ _ _ E).
Qed.

(** C4: [Home] is deterministic.  For every list of task records, two
    requests of the page, by any viewers at any times and in any two
    worlds whose module holds that list, get the same markup, which is a
    function of the records. *)
Theorem Home_deterministic (records : list Task.t) (w1 w2 : World)
    (viewer1 viewer2 : string) (time1 time2 : nat) :
  var_tasks w1 = Some records →
  var_tasks w2 = Some records →
  (handle (Request viewer1 time1) w1).1 = Some (Ok (render records))
  ∧ (handle (Request viewer2 time2) w2).1
    = (handle (Request viewer1 time1) w1).1.
Proof.
  intros H1 H2. simpl.
  by rewrite (Home_initialised _ _ H1), (Home_initialised _ _ H2).
Qed.

(** C7: in the rendered document every task card holds one unordered
    list, whose items are the highlights of the task in the order of its
    [highlights], each item keyed by its own text. *)
Theorem highlights_in_order_keyed_by_text (records : list Task.t) :
  Forall2 (λ task card,
    ∃ ul, child_elements "ul" card = [ul]
          ∧ Forall (λ item, has_tag "li" item = true) (children_of ul)
          ∧ text_content <$> children_of ul = Task.highlights task
          ∧ key_of <$> children_of ul = Some <$> Task.highlights task)
    records (task_cards (render records)).
Proof.
  rewrite task_cards_render.
  induction records as [|task records IH]; simpl; constructor; [|exact IH].
  eexists. split; [reflexivity|]. simpl.
  split_and!;
    [apply highlight_items_tags
    |apply highlight_items_texts
    |apply highlight_items_keys].
Qed.

(** C8: the construction of the records only reads files.  Run in a world
    whose module holds a list of descriptors, it leaves the file system,
    the working directory and the bindings of the module as they were,
    the list of descriptors included, and adds to the trace nothing but
    the reads of the files of a prefix of the list. *)
Theorem tasks_construction_reads_only (w : World)
    (descriptors : list BaseTask.t) :
  var_baseTasks w = Some descriptors →
  files (tasks w).2 = files w
  ∧ cwd (tasks w).2 = cwd w
  ∧ var_baseTasks (tasks w).2 = Some descriptors
  ∧ var_tasks (tasks w).2 = var_tasks w
  ∧ ∃ k, trace (tasks w).2 = trace w ++ reads_of w (take k descriptors).
Proof.
  intros Hv.
  assert (tasks w = buildTaskRecords descriptors w) as ->.
  { unfold tasks, get_baseTasks, mbind, Js_bind. by rewrite Hv. }
  destruct (buildTaskRecords_world descriptors w) as [k ->].
  split_and!; try done. by exists k.
Qed.

(** C10: the files are read once, when the module is evaluated, and not by
    [Home].  After an evaluation that succeeds the trace has grown by one
    read per descriptor; whatever happens afterwards to the files or to
    the working directory, every request is answered with the markup of
    the records bound by the evaluation, and serving the requests adds
    nothing to the trace. *)
Theorem reads_once_at_module_initialisation (w w1 : World)
    (events : list event) :
  page_module w = (Ok (), w1) →
  trace w1 = trace w ++ reads_of w baseTasks
  ∧ ∃ records,
      var_tasks w1 = Some records
      ∧ (serve events w1).1
        = List.map (λ _, Ok (render records)) (List.filter is_request events)
      ∧ trace (serve events w1).2 = trace w1
      ∧ var_tasks (serve events w1).2 = Some records.
Proof.
  intros E.
  pose proof (page_module_Ok w (page_module_Ok_readable w w1 E)) as E'.
  rewrite E in E'. injection E' as ->.
  split; [done|].
  exists (records_of w baseTasks). split; [done|].
  by apply serve_initialised.
Qed.

(** C5: with the two descriptors of the table and two readable files, the
    first render returns a document with two sections.  The first, the
    header, holds exactly two links, both to /task-report.pdf.  The second
    holds exactly two task cards, titled as the descriptors are; each card
    holds one [details] element, without the [open] prop and so collapsed
    until the viewer opens it, whose [code] element holds the whole text
    of the file of the card and nothing else. *)
Theorem two_cards_and_two_links (w : World) (text1 text2 : string) :
  files w !! path_join [cwd w; "php"; "task1_largest.php"]
  = Some (RegularFile true text1) →
  files w !! path_join [cwd w; "php"; "task2_reverse.php"]
  = Some (RegularFile true text2) →
  ∃ doc w' header tasksSection card1 card2 details1 details2,
    first_render w = (Ok doc, w')
    ∧ by_tag "section" doc = [header; tasksSection]
    ∧ prop "href" <$> by_tag "a" header
      = [Some "/task-report.pdf"; Some "/task-report.pdf"]
    ∧ by_tag "a" doc = by_tag "a" header
    ∧ task_cards doc = [card1; card2]
    ∧ child_elements "li" <$> child_elements "ul" tasksSection
      = [[card1; card2]]
    ∧ text_content <$> by_tag "h3" card1
      = ["Task 1 · Largest Number Using Nested If"]
    ∧ text_content <$> by_tag "h3" card2
      = ["Task 2 · Reverse String with strrev()"]
    ∧ BaseTask.title <$> baseTasks
      = text_content <$> (by_tag "h3" card1 ++ by_tag "h3" card2)
    ∧ by_tag "details" card1 = [details1]
    ∧ by_tag "details" card2 = [details2]
    ∧ prop "open" details1 = None
    ∧ prop "open" details2 = None
    ∧ text_content <$> by_tag "code" details1 = [text1]
    ∧ text_content <$> by_tag "code" details2 = [text2]
    ∧ text_content <$> by_tag "code" doc = [text1; text2].
Proof.
  intros H1 H2.
  assert (Forall (readable w) baseTasks) as Hall.
  { repeat constructor; unfold readable, source_text, source_path; simpl.
    - by rewrite H1.
    - by rewrite H2. }
  pose proof (page_module_Ok w Hall) as E.
  assert (records_of w baseTasks
          = List.map (λ '(task, text), spread_with_code task text)
              (List.combine baseTasks [text1; text2])) as Er.
  { unfold records_of, source_text, source_path; simpl. by rewrite H1, H2. }
  rewrite Er in E.
  eexists _, _, _, _, _, _, _, _. split.
  { unfold first_render. rewrite (bind_Ok _ _ _ _ _ E).
    by apply Home_initialised. }
  split_and!; reflexivity.
Qed.

(** ** Further properties of the construction of the records *)

Lemma load_task_world task w :
  (load_task task w).2 = log (ReadFile (source_path w task)) w.
Proof.
  unfold load_task, source_path, process_cwd, readFileSync.
  unfold mbind, Js_bind, mret, Js_ret, throw.
  by destruct (files w !! _) as [[[] c|]|].
Qed.

Lemma load_task_outcome_log es task w :
  (load_task task (log_all es w)).1 = (load_task task w).1.
Proof.
  unfold load_task, source_path, process_cwd, readFileSync.
  unfold mbind, Js_bind, mret, Js_ret, throw. simpl.
  by destruct (files w !! _) as [[[] c|]|].
Qed.

(** The exception of the construction is the one thrown while the first
    descriptor whose file cannot be read is loaded. *)
Lemma buildTaskRecords_Throw_of_load before task after w e :
  Forall (readable w) before →
  (load_task task w).1 = Throw e →
  buildTaskRecords (before ++ task :: after) w
  = (Throw e, log_all (reads_of w (before ++ [task])) w).
Proof.
  unfold buildTaskRecords. revert w.
  induction before as [|t before IH]; intros w Hb He.
  - assert (load_task task w
            = (Throw e, log (ReadFile (source_path w task)) w)) as E.
    { rewrite <- He, <- load_task_world. by destruct (load_task task w). }
    simpl. by rewrite (bind_Throw _ _ _ _ _ E).
  - inversion Hb as [|? ? [content Hc] Hb']; subst.
    assert ((load_task task (log (ReadFile (source_path w t)) w)).1 = Throw e)
      as He' by (unfold log; by rewrite load_task_outcome_log).
    pose proof (IH (log (ReadFile (source_path w t)) w) Hb' He') as E.
    simpl. rewrite (bind_Ok _ _ _ _ _ (load_task_Ok _ _ _ Hc)).
    rewrite (bind_Throw _ _ _ _ _ E).
    unfold log. by rewrite log_all_app.
Qed.

(** When the construction returns records, every file could be read and
    the records are the descriptors with the texts of their files. *)
Lemma buildTaskRecords_Ok_inv descriptors w records :
  (buildTaskRecords descriptors w).1 = Ok records →
  Forall (readable w) descriptors ∧ records = records_of w descriptors.
Proof.
  intros E.
  destruct (first_unreadable w descriptors)
    as [Hall|(before & task & after & -> & Hb & Hn)].
  - rewrite (buildTaskRecords_Ok _ _ _ (records_of_Forall2 _ _ Hall)) in E.
    by injection E as <-.
  - destruct (buildTaskRecords_Throw before task after w Hb Hn) as [code E'].
    rewrite E' in E. discriminate E.
Qed.

Lemma records_of_agree descriptors w1 w2 :
  Forall (λ task, source_text w1 task = source_text w2 task) descriptors →
  Forall (readable w1) descriptors →
  Forall (readable w2) descriptors
  ∧ records_of w1 descriptors = records_of w2 descriptors.
Proof.
  induction 1 as [|task descriptors Ht _ IH]; intros Hall; [done|].
  inversion Hall as [|? ? Hr Hall']; subst.
  destruct (IH Hall') as [Hall2 Er]. split.
  - constructor; [|done]. unfold readable. by rewrite <- Ht.
  - simpl. by rewrite Ht, Er.
Qed.

(** X1: for any list of descriptors, the construction returns records
    exactly when the file of every descriptor can be read; one file that
    is missing, unreadable or a directory is enough for an exception. *)
Theorem buildTaskRecords_Ok_iff_readable (descriptors : list BaseTask.t)
    (w : World) :
  Forall (readable w) descriptors
  ↔ ∃ records, (buildTaskRecords descriptors w).1 = Ok records.
Proof.
  split.
  - intros Hall. exists (records_of w descriptors).
    by rewrite (buildTaskRecords_Ok _ _ _ (records_of_Forall2 _ _ Hall)).
  - intros [records E].
    destruct (first_unreadable w descriptors)
      as [Hall|(before & task & after & -> & Hb & Hn)]; [done|].
    destruct (buildTaskRecords_Throw before task after w Hb Hn) as [code E'].
    rewrite E' in E. discriminate E.
Qed.

(** X2: the construction stops at the first descriptor whose file cannot
    be read.  It throws the exception that loading this descriptor
    throws; the files of the descriptors before it have been read, in
    order; after them the trace holds at most the read of the file that
    failed, so the files of the descriptors after it are not read. *)
Theorem buildTaskRecords_stops_at_first_unreadable
    (before : list BaseTask.t) (task : BaseTask.t) (after : list BaseTask.t)
    (w : World) :
  Forall (readable w) before →
  source_text w task = None →
  ∃ e rest,
    (load_task task w).1 = Throw e
    ∧ (buildTaskRecords (before ++ task :: after) w).1 = Throw e
    ∧ trace (buildTaskRecords (before ++ task :: after) w).2
      = trace w ++ reads_of w before ++ rest
    ∧ (rest = [] ∨ rest = [ReadFile (source_path w task)]).
Proof.
  intros Hb Hn.
  destruct (load_task_Throw task w Hn) as [code El].
  assert ((load_task task w).1 = Throw (SystemError code (source_path w task)))
    as He by (by rewrite El).
  rewrite (buildTaskRecords_Throw_of_load before task after w _ Hb He).
  eexists _, [ReadFile (source_path w task)]. split_and!; [done|done| |by right].
  unfold reads_of. simpl. by rewrite List.map_app.
Qed.

(** X3: the records that the construction returns depend on the world
    only through the texts that can be read at the paths of the
    descriptors: in two worlds where each descriptor has the same
    readable text, or none in both, the construction returns the same
    records or returns none in both, whatever else differs (other files,
    earlier input and output, the bindings of the module). *)
Theorem buildTaskRecords_only_source_files_matter
    (descriptors : list BaseTask.t) (w1 w2 : World) :
  Forall (λ task, source_text w1 task = source_text w2 task) descriptors →
  ∀ records,
    (buildTaskRecords descriptors w1).1 = Ok records
    ↔ (buildTaskRecords descriptors w2).1 = Ok records.
Proof.
  intros Hf records.
  assert (Forall (λ task, source_text w2 task = source_text w1 task)
            descriptors) as Hf'
    by (eapply Forall_impl; [exact Hf|]; by intros task ->).
  split; intros E; apply buildTaskRecords_Ok_inv in E as [Hall ->].
  - destruct (records_of_agree _ _ _ Hf Hall) as [Hall2 ->].
    by rewrite (buildTaskRecords_Ok _ _ _ (records_of_Forall2 _ _ Hall2)).
  - destruct (records_of_agree _ _ _ Hf' Hall) as [Hall1 ->].
    by rewrite (buildTaskRecords_Ok _ _ _ (records_of_Forall2 _ _ Hall1)).
Qed.

(** ** Further properties of the markup *)

Lemma by_tag_highlight_items (t : string) (hs : list string) :
  t ≠ "li" →
  List.concat (List.map (by_tag t) (List.map highlight_item hs)) = [].
Proof.
  intros Ht. induction hs as [|h hs IH]; [done|].
  cbn [List.map List.concat by_tag highlight_item has_tag].
  rewrite bool_decide_eq_false_2 by done. exact IH.
Qed.

Lemma by_tag_a_task_cards records :
  List.concat (List.map (by_tag "a") (List.map task_card records)) = [].
Proof.
  induction records as [|task records IH]; [done|].
  cbn [List.map List.concat]. rewrite IH. simpl.
  by rewrite by_tag_highlight_items.
Qed.

Lemma task_cards_keys records :
  key_of <$> List.map task_card records = Some <$> (Task.id <$> records).
Proof. induction records as [|task records IH]; [done|]. simpl. f_equal. exact IH. Qed.

(** X4: for any list of records the document holds one card per record,
    in the order of the list, and each card is keyed by the [id] of its
    record; the keys of the cards are pairwise distinct exactly when the
    ids of the records are. *)
Theorem task_cards_keyed_by_id (records : list Task.t) :
  length (task_cards (render records)) = length records
  ∧ key_of <$> task_cards (render records) = Some <$> (Task.id <$> records)
  ∧ (NoDup (key_of <$> task_cards (render records))
     ↔ NoDup (Task.id <$> records)).
Proof.
  rewrite task_cards_render, task_cards_keys.
  split_and!; [by rewrite length_map|done|].
  apply (NoDup_fmap Some).
Qed.

(** X5: the items of the highlight list of a card have pairwise distinct
    keys exactly when the highlights of the task are pairwise distinct
    strings: a highlight that occurs twice gives two items with one key. *)
Theorem highlight_keys_unique_iff (task : Task.t) :
  ∃ ul, child_elements "ul" (task_card task) = [ul]
        ∧ (NoDup (key_of <$> children_of ul) ↔ NoDup (Task.highlights task)).
Proof.
  eexists. split; [reflexivity|]. simpl.
  rewrite highlight_items_keys. apply (NoDup_fmap Some).
Qed.

(** X6: whatever the records hold, the document has exactly two links and
    two sections.  Both links lead to /task-report.pdf; the first is the
    download link, the second opens in a new browsing context and carries
    rel=noreferrer.  The text of a task never adds a link. *)
Theorem links_are_the_two_report_links (records : list Task.t) :
  prop "href" <$> by_tag "a" (render records)
  = [Some "/task-report.pdf"; Some "/task-report.pdf"]
  ∧ prop "target" <$> by_tag "a" (render records) = [None; Some "_blank"]
  ∧ prop "rel" <$> by_tag "a" (render records) = [None; Some "noreferrer"]
  ∧ text_content <$> by_tag "a" (render records)
    = ["Download Report"; "Open Report in Browser"]
  ∧ length (by_tag "section" (render records)) = 2.
Proof.
  assert (by_tag "a" (render records)
          = [ Element "a" None
                [ ("className", Css.primary styles);
                  ("href", "/task-report.pdf") ]
                [Text "Download Report"];
              Element "a" None
                [ ("className", Css.secondary styles);
                  ("href", "/task-report.pdf");
                  ("target", "_blank");
                  ("rel", "noreferrer") ]
                [Text "Open Report in Browser"] ]) as ->.
  { unfold render. simpl. by rewrite by_tag_a_task_cards. }
  split_and!; try reflexivity.
  unfold render. simpl. by rewrite by_tag_section_task_cards.
Qed.

(** X7: for any list of records, each card shows its own record.  Its
    one heading is the title and its one paragraph reads Aim: followed by
    a space and the aim.  It has one [details] element, a child of the
    card without the [open] prop; the children of that element are the
    summary Show Program and one [pre], whose only child is the one
    [code] element of the card, and the only child of that is the code of
    the record, whole and unchanged, as a text. *)
Theorem card_contents (records : list Task.t) :
  Forall2 (λ task card,
    text_content <$> by_tag "h3" card = [Task.title task]
    ∧ text_content <$> by_tag "p" card = ["Aim: " +:+ Task.aim task]
    ∧ ∃ details summary pre,
        by_tag "details" card = [details]
        ∧ child_elements "details" card = [details]
        ∧ prop "open" details = None
        ∧ children_of details = [summary; pre]
        ∧ has_tag "summary" summary = true
        ∧ children_of summary = [Text "Show Program"]
        ∧ has_tag "pre" pre = true
        ∧ children_of pre = [Element "code" None [] [Text (Task.code task)]]
        ∧ by_tag "code" card
          = [Element "code" None [] [Text (Task.code task)]])
    records (task_cards (render records)).
Proof.
  rewrite task_cards_render.
  induction records as [|task records IH]; [constructor|].
  cbn [List.map]. constructor; [|exact IH].
  split_and!.
  - unfold task_card. cbn [by_tag List.map List.concat].
    rewrite by_tag_highlight_items by done. reflexivity.
  - unfold task_card. cbn [by_tag List.map List.concat].
    rewrite by_tag_highlight_items by done. reflexivity.
  - eexists _, _, _. split_and!; try reflexivity.
    + unfold task_card. cbn [by_tag List.map List.concat].
      rewrite by_tag_highlight_items by done. reflexivity.
    + unfold task_card. cbn [by_tag List.map List.concat].
      rewrite by_tag_highlight_items by done. reflexivity.
Qed.

Lemma highlight_items_inj (hs1 hs2 : list string) :
  List.map highlight_item hs1 = List.map highlight_item hs2 → hs1 = hs2.
Proof.
  revert hs2. induction hs1 as [|h hs1 IH]; intros [|h' hs2] E;
    try discriminate E; [done|].
  injection E as -> E. f_equal. by apply IH.
Qed.

Lemma task_card_same_display a b :
  task_card a = task_card b ↔ same_display a b.
Proof.
  unfold same_display. split.
  - intros [= Hid Htitle Haim Hhs Hcode].
    apply highlight_items_inj in Hhs. done.
  - destruct a, b; simpl. by intros (-> & -> & -> & -> & ->).
Qed.

(** X8: the document shows every property of the records but [program]
    and nothing else of them: two lists of records give the same document
    exactly when they have the same length and agree, position by
    position, on [id], [title], [aim], [highlights] and [code]. *)
Theorem render_eq_iff_same_display (records1 records2 : list Task.t) :
  render records1 = render records2 ↔ Forall2 same_display records1 records2.
Proof.
  split.
  - intros [= E]. revert records2 E.
    induction records1 as [|a records1 IH]; intros [|b records2] E;
      try discriminate E; [constructor|].
    cbn [List.map] in E.
    assert (task_card a = task_card b
            ∧ List.map task_card records1 = List.map task_card records2)
      as [Ecard Erest].
    { remember (task_card a) as ca. remember (task_card b) as cb.
      by injection E. }
    constructor; [|by apply IH].
    apply task_card_same_display. exact Ecard.
  - intros HF.
    assert (List.map task_card records1 = List.map task_card records2) as E.
    { induction HF as [|a b records1 records2 Hab _ IH]; [done|].
      simpl. f_equal; [by apply task_card_same_display|exact IH]. }
    unfold render. by rewrite E.
Qed.

End Page.

(** ** The module in a sample deployment *)

Example posix_join_sample :
  Posix.join ["/srv/app"; "php"; "task1_largest.php"]
  = "/srv/app/php/task1_largest.php".
Proof. reflexivity. Qed.

Example posix_join_normalises :
  Posix.join ["/"; "php"; "../x/./y//z/"] = "/x/y/z/"
  ∧ Posix.join ["a"; "../../b"; ""] = "../b"
  ∧ Posix.join [""; ""] = ".".
Proof. by vm_compute. Qed.

Example page_module_sample :
  (page_module Posix.join sample_world).1 = Ok ()
  ∧ trace (page_module Posix.join sample_world).2
    = [ ReadFile "/srv/app/php/task1_largest.php";
        ReadFile "/srv/app/php/task2_reverse.php" ]
  ∧ Task.code <$> default [] (var_tasks (page_module Posix.join sample_world).2)
    = [sample_largest; sample_reverse].
Proof. by vm_compute. Qed.

Example page_module_missing_file :
  (page_module Posix.join world_missing_reverse).1
  = Throw (SystemError ENOENT "/srv/app/php/task2_reverse.php")
  ∧ var_tasks (page_module Posix.join world_missing_reverse).2 = None
  ∧ (first_render sample_styles Posix.join world_missing_reverse).1
    = Throw (SystemError ENOENT "/srv/app/php/task2_reverse.php").
Proof. by vm_compute. Qed.

Example Home_before_module_evaluation :
  (Home sample_styles sample_world).1 = Throw (ReferenceError "tasks").
Proof. reflexivity. Qed.

Example first_render_sample_text :
  text_content
    <$> by_tag "summary"
          (match (first_render sample_styles Posix.join sample_world).1 with
           | Ok doc => doc
           | Throw _ => Text ""
           end)
  = ["Show Program"; "Show Program"].
Proof. by vm_compute. Qed.

(** ** Instances of the properties in the sample deployment *)

Lemma baseTasks_ids_distinct_witness :
  baseTasks !! 0 = Some (List.nth 0 baseTasks (BaseTask.mk "" "" "" [] ""))
  ∧ baseTasks !! 1 = Some (List.nth 1 baseTasks (BaseTask.mk "" "" "" [] ""))
  ∧ 0 ≠ 1
  ∧ BaseTask.id (List.nth 0 baseTasks (BaseTask.mk "" "" "" [] ""))
    ≠ BaseTask.id (List.nth 1 baseTasks (BaseTask.mk "" "" "" [] "")).
Proof.
  split; [reflexivity|]. split; [reflexivity|]. split; [lia|].
  apply (baseTasks_ids_distinct 0 1); [reflexivity|reflexivity|lia].
Defined.

Lemma tasks_code_is_file_text_witness :
  Forall (readable Posix.join sample_world) baseTasks
  ∧ ∃ records w',
      page_module Posix.join sample_world = (Ok (), w')
      ∧ var_tasks w' = Some records
      ∧ Forall2 (λ task record,
          files sample_world
            !! Posix.join [cwd sample_world; "php"; BaseTask.program task]
          = Some (RegularFile true (Task.code record)))
          baseTasks records.
Proof.
  assert (Forall (readable Posix.join sample_world) baseTasks) as Hall
    by (repeat constructor; vm_compute; eexists; reflexivity).
  split; [exact Hall|].
  exact (tasks_code_is_file_text Posix.join sample_world Hall).
Defined.

Lemma tasks_same_length_and_order_witness :
  Forall (readable Posix.join sample_world) baseTasks
  ∧ ∃ records w',
      page_module Posix.join sample_world = (Ok (), w')
      ∧ var_tasks w' = Some records
      ∧ length records = length baseTasks
      ∧ ∀ i task, baseTasks !! i = Some task →
          ∃ record, records !! i = Some record
                    ∧ omit_code record = task
                    ∧ source_text Posix.join sample_world task
                      = Some (Task.code record).
Proof.
  assert (Forall (readable Posix.join sample_world) baseTasks) as Hall
    by (repeat constructor; vm_compute; eexists; reflexivity).
  split; [exact Hall|].
  exact (tasks_same_length_and_order Posix.join sample_world Hall).
Defined.

Lemma tasks_preserve_descriptor_fields_witness :
  Forall (readable Posix.join sample_world) baseTasks
  ∧ ∃ records w',
      page_module Posix.join sample_world = (Ok (), w')
      ∧ var_tasks w' = Some records
      ∧ Forall2 (λ task record,
          Task.id record = BaseTask.id task
          ∧ Task.title record = BaseTask.title task
          ∧ Task.aim record = BaseTask.aim task
          ∧ Task.highlights record = BaseTask.highlights task
          ∧ Task.program record = BaseTask.program task
          ∧ record = spread_with_code task (Task.code record)
          ∧ source_text Posix.join sample_world task
            = Some (Task.code record))
          baseTasks records.
Proof.
  assert (Forall (readable Posix.join sample_world) baseTasks) as Hall
    by (repeat constructor; vm_compute; eexists; reflexivity).
  split; [exact Hall|].
  exact (tasks_preserve_descriptor_fields Posix.join sample_world Hall).
Defined.

Lemma unreadable_source_aborts_witness :
  List.nth 1 baseTasks (BaseTask.mk "" "" "" [] "") ∈ baseTasks
  ∧ ¬ readable Posix.join world_missing_reverse
        (List.nth 1 baseTasks (BaseTask.mk "" "" "" [] ""))
  ∧ ∃ code culprit w',
      culprit ∈ baseTasks
      ∧ ¬ readable Posix.join world_missing_reverse culprit
      ∧ page_module Posix.join world_missing_reverse
        = (Throw (SystemError code
                    (source_path Posix.join world_missing_reverse culprit)), w')
      ∧ var_tasks w' = var_tasks world_missing_reverse
      ∧ first_render sample_styles Posix.join world_missing_reverse
        = (Throw (SystemError code
                    (source_path Posix.join world_missing_reverse culprit)), w').
Proof.
  assert (List.nth 1 baseTasks (BaseTask.mk "" "" "" [] "") ∈ baseTasks) as Hin
    by (simpl; apply elem_of_cons; right; apply elem_of_cons; left; reflexivity).
  assert (¬ readable Posix.join world_missing_reverse
              (List.nth 1 baseTasks (BaseTask.mk "" "" "" [] ""))) as Hnot
    by (intros [content Hc]; vm_compute in Hc; discriminate Hc).
  split; [exact Hin|]. split; [exact Hnot|].
  exact (unreadable_source_aborts sample_styles Posix.join
           world_missing_reverse _ Hin Hnot).
Defined.

Lemma Home_deterministic_witness :
  var_tasks (page_module Posix.join sample_world).2
  = Some (records_of Posix.join sample_world baseTasks)
  ∧ var_tasks (init_tasks (records_of Posix.join sample_world baseTasks)
                 world_missing_reverse)
    = Some (records_of Posix.join sample_world baseTasks)
  ∧ (handle sample_styles (Request "alice" 1)
       (page_module Posix.join sample_world).2).1
    = Some (Ok (render sample_styles
                  (records_of Posix.join sample_world baseTasks)))
  ∧ (handle sample_styles (Request "bob" 2)
       (init_tasks (records_of Posix.join sample_world baseTasks)
          world_missing_reverse)).1
    = (handle sample_styles (Request "alice" 1)
         (page_module Posix.join sample_world).2).1.
Proof.
  assert (var_tasks (page_module Posix.join sample_world).2
          = Some (records_of Posix.join sample_world baseTasks)) as H1
    by (vm_compute; reflexivity).
  assert (var_tasks (init_tasks (records_of Posix.join sample_world baseTasks)
                       world_missing_reverse)
          = Some (records_of Posix.join sample_world baseTasks)) as H2
    by reflexivity.
  split; [exact H1|]. split; [exact H2|].
  exact (Home_deterministic sample_styles _ _ _ "alice" "bob" 1 2 H1 H2).
Defined.

Lemma two_cards_and_two_links_witness :
  files sample_world !! Posix.join [cwd sample_world; "php"; "task1_largest.php"]
  = Some (RegularFile true sample_largest)
  ∧ files sample_world
      !! Posix.join [cwd sample_world; "php"; "task2_reverse.php"]
    = Some (RegularFile true sample_reverse)
  ∧ ∃ doc w' header tasksSection card1 card2 details1 details2,
      first_render sample_styles Posix.join sample_world = (Ok doc, w')
      ∧ by_tag "section" doc = [header; tasksSection]
      ∧ prop "href" <$> by_tag "a" header
        = [Some "/task-report.pdf"; Some "/task-report.pdf"]
      ∧ by_tag "a" doc = by_tag "a" header
      ∧ task_cards doc = [card1; card2]
      ∧ child_elements "li" <$> child_elements "ul" tasksSection
        = [[card1; card2]]
      ∧ text_content <$> by_tag "h3" card1
        = ["Task 1 · Largest Number Using Nested If"]
      ∧ text_content <$> by_tag "h3" card2
        = ["Task 2 · Reverse String with strrev()"]
      ∧ BaseTask.title <$> baseTasks
        = text_content <$> (by_tag "h3" card1 ++ by_tag "h3" card2)
      ∧ by_tag "details" card1 = [details1]
      ∧ by_tag "details" card2 = [details2]
      ∧ prop "open" details1 = None
      ∧ prop "open" details2 = None
      ∧ text_content <$> by_tag "code" details1 = [sample_largest]
      ∧ text_content <$> by_tag "code" details2 = [sample_reverse]
      ∧ text_content <$> by_tag "code" doc = [sample_largest; sample_reverse].
Proof.
  assert (files sample_world
            !! Posix.join [cwd sample_world; "php"; "task1_largest.php"]
          = Some (RegularFile true sample_largest)) as H1
    by (vm_compute; reflexivity).
  assert (files sample_world
            !! Posix.join [cwd sample_world; "php"; "task2_reverse.php"]
          = Some (RegularFile true sample_reverse)) as H2
    by (vm_compute; reflexivity).
  split; [exact H1|]. split; [exact H2|].
  exact (two_cards_and_two_links sample_styles Posix.join sample_world
           sample_largest sample_reverse H1 H2).
Defined.

Lemma tasks_construction_reads_only_witness :
  var_baseTasks (init_baseTasks baseTasks world_missing_reverse) = Some baseTasks
  ∧ files (tasks Posix.join (init_baseTasks baseTasks world_missing_reverse)).2
    = files (init_baseTasks baseTasks world_missing_reverse)
  ∧ cwd (tasks Posix.join (init_baseTasks baseTasks world_missing_reverse)).2
    = cwd (init_baseTasks baseTasks world_missing_reverse)
  ∧ var_baseTasks
      (tasks Posix.join (init_baseTasks baseTasks world_missing_reverse)).2
    = Some baseTasks
  ∧ var_tasks
      (tasks Posix.join (init_baseTasks baseTasks world_missing_reverse)).2
    = var_tasks (init_baseTasks baseTasks world_missing_reverse)
  ∧ ∃ k,
      trace (tasks Posix.join (init_baseTasks baseTasks world_missing_reverse)).2
      = trace (init_baseTasks baseTasks world_missing_reverse)
        ++ reads_of Posix.join (init_baseTasks baseTasks world_missing_reverse)
             (take k baseTasks).
Proof.
  split; [reflexivity|].
  apply (tasks_construction_reads_only Posix.join
           (init_baseTasks baseTasks world_missing_reverse) baseTasks).
  reflexivity.
Defined.

Lemma reads_once_at_module_initialisation_witness :
  page_module Posix.join sample_world
  = (Ok (), (page_module Posix.join sample_world).2)
  ∧ trace (page_module Posix.join sample_world).2
    = trace sample_world ++ reads_of Posix.join sample_world baseTasks
  ∧ ∃ records,
      var_tasks (page_module Posix.join sample_world).2 = Some records
      ∧ (serve sample_styles
           [ Request "alice" 1;
             FileRemoved "/srv/app/php/task1_largest.php";
             FilePut "/srv/app/php/task2_reverse.php" Directory;
             DirectoryChanged "/tmp";
             Request "bob" 2 ]
           (page_module Posix.join sample_world).2).1
        = List.map (λ _, Ok (render sample_styles records))
            (List.filter is_request
               [ Request "alice" 1;
                 FileRemoved "/srv/app/php/task1_largest.php";
                 FilePut "/srv/app/php/task2_reverse.php" Directory;
                 DirectoryChanged "/tmp";
                 Request "bob" 2 ])
      ∧ trace (serve sample_styles
                 [ Request "alice" 1;
                   FileRemoved "/srv/app/php/task1_largest.php";
                   FilePut "/srv/app/php/task2_reverse.php" Directory;
                   DirectoryChanged "/tmp";
                   Request "bob" 2 ]
                 (page_module Posix.join sample_world).2).2
        = trace (page_module Posix.join sample_world).2
      ∧ var_tasks (serve sample_styles
                     [ Request "alice" 1;
                       FileRemoved "/srv/app/php/task1_largest.php";
                       FilePut "/srv/app/php/task2_reverse.php" Directory;
                       DirectoryChanged "/tmp";
                       Request "bob" 2 ]
                     (page_module Posix.join sample_world).2).2
        = Some records.
Proof.
  assert (page_module Posix.join sample_world
          = (Ok (), (page_module Posix.join sample_world).2)) as E
    by (vm_compute; reflexivity).
  split; [exact E|].
  exact (reads_once_at_module_initialisation sample_styles Posix.join
           sample_world _ _ E).
Defined.

Lemma buildTaskRecords_stops_at_first_unreadable_witness :
  Forall (readable Posix.join sample_world) (List.firstn 1 baseTasks)
  ∧ source_text Posix.join sample_world task_without_file = None
  ∧ ∃ e rest,
      (load_task Posix.join task_without_file sample_world).1 = Throw e
      ∧ (buildTaskRecords Posix.join
           (List.firstn 1 baseTasks
            ++ task_without_file :: List.skipn 1 baseTasks)
           sample_world).1 = Throw e
      ∧ trace (buildTaskRecords Posix.join
                 (List.firstn 1 baseTasks
                  ++ task_without_file :: List.skipn 1 baseTasks)
                 sample_world).2
        = trace sample_world
          ++ reads_of Posix.join sample_world (List.firstn 1 baseTasks)
          ++ rest
      ∧ (rest = []
         ∨ rest = [ReadFile (source_path Posix.join sample_world
                               task_without_file)]).
Proof.
  assert (Forall (readable Posix.join sample_world) (List.firstn 1 baseTasks))
    as Hb by (repeat constructor; vm_compute; eexists; reflexivity).
  assert (source_text Posix.join sample_world task_without_file = None) as Hn
    by (vm_compute; reflexivity).
  split; [exact Hb|]. split; [exact Hn|].
  exact (buildTaskRecords_stops_at_first_unreadable Posix.join
           (List.firstn 1 baseTasks) task_without_file
           (List.skipn 1 baseTasks) sample_world Hb Hn).
Defined.

Example stops_in_the_gap :
  buildTaskRecords Posix.join table_with_gap sample_world
  = (Throw (SystemError ENOENT "/srv/app/php/task3_absent.php"),
     log_all [ ReadFile "/srv/app/php/task1_largest.php";
               ReadFile "/srv/app/php/task3_absent.php" ] sample_world).
Proof. by vm_compute. Qed.

Example stops_at_first_unreadable_sample :
  buildTaskRecords Posix.join baseTasks world_missing_largest
  = (Throw (SystemError ENOENT "/srv/app/php/task1_largest.php"),
     log (ReadFile "/srv/app/php/task1_largest.php") world_missing_largest).
Proof. by vm_compute. Qed.

Lemma buildTaskRecords_only_source_files_matter_witness :
  Forall (λ task,
    source_text Posix.join sample_world task
    = source_text Posix.join sample_world_busy task) baseTasks
  ∧ ∀ records,
      (buildTaskRecords Posix.join baseTasks sample_world).1 = Ok records
      ↔ (buildTaskRecords Posix.join baseTasks sample_world_busy).1
        = Ok records.
Proof.
  assert (Forall (λ task,
            source_text Posix.join sample_world task
            = source_text Posix.join sample_world_busy task) baseTasks) as Hf
    by (repeat constructor; vm_compute; reflexivity).
  split; [exact Hf|].
  exact (buildTaskRecords_only_source_files_matter Posix.join baseTasks
           sample_world sample_world_busy Hf).
Defined.
